(** * PyKrige variogram models: a shallow embedding of
      [pykrige/variogram_models.py] and the properties of its registry,
      its seven semivariance functions and their bounds / initial-guess
      helpers.

    Numbers are IEEE-754 binary64 values ([PrimFloat.float]); the
    arithmetic of the source is the kernel's [add], [sub], [mul], [div].
    Python raises where numpy does not, so every operation returns a
    [result] and distinguishes a Python [float] from a numpy scalar and a
    numpy array.  The two libm functions the source reaches ([exp] through
    [np.exp], [pow] through [**]) are the interface [Libm]. *)

From Stdlib Require Import Floats ZArith Lia.
From stdpp Require Import gmap strings list.

Local Open Scope float_scope.
Set Warnings "-inexact-float".

(** ** Exceptions and results *)

Inductive exn : Set :=
  | IndexError
  | ZeroDivisionError
  | OverflowError
  | ValueError
  | KeyError.

Inductive result (A : Type) : Type :=
  | Ok (a : A)
  | Raise (e : exn).
Arguments Ok {A} a.
Arguments Raise {A} e.

#[global] Instance result_ret : MRet result := @Ok.
#[global] Instance result_bind : MBind result := fun A B f c =>
  match c with
  | Ok a => f a
  | Raise e => Raise e
  end.
#[global] Instance result_fmap : FMap result := fun A B f c =>
  match c with
  | Ok a => Ok (f a)
  | Raise e => Raise e
  end.

Definition raises {A} (c : result A) : bool :=
  match c with
  | Ok _ => false
  | Raise _ => true
  end.

(** ** Binary64 helpers *)

(** Integrality tests on the specification view of a float, written for
    [iw != floor(iw)] and for CPython's [DOUBLE_IS_ODD_INTEGER]
    ([fmod(fabs(x), 2.0) == 1.0]). *)
Definition SF_is_integer (x : spec_float) : bool :=
  match x with
  | S754_zero _ => true
  | S754_finite _ m e =>
      if (0 <=? e)%Z then true
      else (Z.pos m mod 2 ^ (- e) =? 0)%Z
  | _ => false
  end.

Definition SF_is_odd_integer (x : spec_float) : bool :=
  match x with
  | S754_finite _ m e =>
      if (e =? 0)%Z then Z.odd (Z.pos m)
      else if (0 <? e)%Z then false
      else (Z.pos m mod 2 ^ (- e) =? 0)%Z && Z.odd (Z.pos m / 2 ^ (- e))
  | _ => false
  end.

Definition is_integer (x : float) : bool := SF_is_integer (Prim2SF x).
Definition is_odd_integer (x : float) : bool := SF_is_odd_integer (Prim2SF x).

(** [copysign(0.0, x)] *)
Definition signed_zero (x : float) : float :=
  if get_sign x then neg_zero else zero.

(** ** The libm interface *)

Class Libm : Type := {
  libm_exp : float -> float;
  libm_pow : float -> float -> float
}.

(** The special values ISO C (Annex F.10.3.1 and F.10.4.4) fixes for [exp]
    and [pow]; nothing is assumed about ordinary arguments. *)
Class LibmSpec (L : Libm) : Prop := {
  exp_zero : forall z, is_zero z = true -> libm_exp z = 1;
  pow_pzero_pos : forall y, (0 <? y) = true -> libm_pow 0 y = 0
}.

(** ** Python and numpy values *)

(** A distance (or an intermediate value) is a Python [float], a numpy
    scalar ([np.float64], also the 0-d array [np.piecewise] returns for a
    scalar), or a one-dimensional [float64] array. *)
Inductive pyval : Type :=
  | PyFloat (x : float)
  | NpFloat (x : float)
  | NdArray (xs : list float).

Definition is_numpy (a : pyval) : bool :=
  match a with
  | PyFloat _ => false
  | _ => true
  end.

(** *** Python float arithmetic: [float_div] and [float_pow] of CPython *)

Definition py_truediv (x y : float) : result float :=
  if is_zero y then Raise ZeroDivisionError else Ok (x / y).

Definition py_pow `{L : Libm} (iv iw : float) : result float :=
  if is_zero iw then Ok 1
  else if is_nan iv then Ok iv
  else if is_nan iw then Ok (if iv =? 1 then 1 else iw)
  else if is_infinity iw then
    let a := abs iv in
    if a =? 1 then Ok 1
    else if Bool.eqb (0 <? iw) (1 <? a) then Ok (abs iw)
    else Ok 0
  else if is_infinity iv then
    let odd := is_odd_integer iw in
    if 0 <? iw then Ok (if odd then iv else abs iv)
    else Ok (if odd then signed_zero iv else 0)
  else if is_zero iv then
    if iw <? 0 then Raise ZeroDivisionError
    else Ok (if is_odd_integer iw then iv else 0)
  else
    (* a negative base with a fractional exponent leaves the floats:
       ValueError in Python 2, a complex number in Python 3 *)
    if (iv <? 0) && negb (is_integer iw) then Raise ValueError
    else
      let negate := (iv <? 0) && is_odd_integer iw in
      let a := if iv <? 0 then - iv else iv in
      if a =? 1 then Ok (if negate then -1 else 1)
      else
        let ix := libm_pow a iw in
        if is_infinity ix then Raise OverflowError
        else Ok (if negate then - ix else ix).

Arguments py_pow : simpl never.
Arguments py_truediv : simpl never.

(** *** numpy elementwise arithmetic

    Under numpy's default error state a division by zero or an invalid
    operation warns and yields inf or nan; it does not raise. *)

Definition np_power `{L : Libm} (x y : float) : float := libm_pow x y.

Definition broadcast (f : float -> float -> float) (xs ys : list float)
  : result (list float) :=
  if decide (length xs = length ys) then Ok (zip_with f xs ys)
  else match xs, ys with
       | [x], _ => Ok (map (f x) ys)
       | _, [y] => Ok (map (fun x => f x y) xs)
       | _, _ => Raise ValueError
       end.

(** A binary operator: Python's rule when both operands are Python
    floats, numpy's otherwise. *)
Definition binop (py : float -> float -> result float)
    (np : float -> float -> float) (a b : pyval) : result pyval :=
  match a, b with
  | PyFloat x, PyFloat y => PyFloat <$> py x y
  | PyFloat x, NpFloat y | NpFloat x, PyFloat y | NpFloat x, NpFloat y =>
      Ok (NpFloat (np x y))
  | PyFloat x, NdArray ys | NpFloat x, NdArray ys =>
      Ok (NdArray (map (np x) ys))
  | NdArray xs, PyFloat y | NdArray xs, NpFloat y =>
      Ok (NdArray (map (fun x => np x y) xs))
  | NdArray xs, NdArray ys => NdArray <$> broadcast np xs ys
  end.

Definition py_add : pyval -> pyval -> result pyval :=
  binop (fun x y => Ok (x + y)) PrimFloat.add.
Definition py_sub : pyval -> pyval -> result pyval :=
  binop (fun x y => Ok (x - y)) PrimFloat.sub.
Definition py_mul : pyval -> pyval -> result pyval :=
  binop (fun x y => Ok (x * y)) PrimFloat.mul.
Definition py_div : pyval -> pyval -> result pyval :=
  binop py_truediv PrimFloat.div.
Definition py_power `{L : Libm} : pyval -> pyval -> result pyval :=
  binop py_pow np_power.

Definition py_neg (a : pyval) : pyval :=
  match a with
  | PyFloat x => PyFloat (- x)
  | NpFloat x => NpFloat (- x)
  | NdArray xs => NdArray (map PrimFloat.opp xs)
  end.

(** [np.exp]: a Python float comes back as a numpy scalar. *)
Definition np_exp `{L : Libm} (a : pyval) : pyval :=
  match a with
  | PyFloat x | NpFloat x => NpFloat (libm_exp x)
  | NdArray xs => NdArray (map libm_exp xs)
  end.

(** Comparison of a distance with a Python float: a truth value per
    element. *)
Inductive pycond : Type :=
  | PyBool (b : bool)
  | NpBools (bs : list bool).

Definition py_cmp (c : float -> float -> bool) (a : pyval) (y : float)
  : pycond :=
  match a with
  | PyFloat x | NpFloat x => PyBool (c x y)
  | NdArray xs => NpBools (map (fun x => c x y) xs)
  end.

Definition py_le : pyval -> float -> pycond := py_cmp PrimFloat.leb.
Definition py_gt : pyval -> float -> pycond := py_cmp (fun x y => PrimFloat.ltb y x).

(** *** [np.piecewise] *)

Inductive pwfunc : Type :=
  | Constant (c : float)
  | Callable (f : pyval -> result pyval).

Definition as_list (a : pyval) : list float :=
  match a with
  | PyFloat x | NpFloat x => [x]
  | NdArray xs => xs
  end.

Definition cond_list (c : pycond) : list bool :=
  match c with
  | PyBool b => [b]
  | NpBools bs => bs
  end.

(** [x[cond]] *)
Fixpoint select (xs : list float) (bs : list bool) : list float :=
  match xs, bs with
  | x :: xs', b :: bs' =>
      if b then x :: select xs' bs' else select xs' bs'
  | _, _ => []
  end.

(** [y[cond] = c] *)
Fixpoint mask_fill (ys : list float) (bs : list bool) (c : float)
  : list float :=
  match ys, bs with
  | y :: ys', b :: bs' => (if b then c else y) :: mask_fill ys' bs' c
  | _, _ => ys
  end.

(** [y[cond] = vals], [vals] holding one value per selected place *)
Fixpoint mask_assign (ys : list float) (bs : list bool) (vs : list float)
  : list float :=
  match ys, bs with
  | y :: ys', b :: bs' =>
      if b then
        match vs with
        | v :: vs' => v :: mask_assign ys' bs' vs'
        | [] => y :: mask_assign ys' bs' []
        end
      else y :: mask_assign ys' bs' vs
  | _, _ => ys
  end.

Definition mask_store (ys : list float) (bs : list bool) (r : pyval)
  : result (list float) :=
  match r with
  | PyFloat c | NpFloat c => Ok (mask_fill ys bs c)
  | NdArray vs =>
      if decide (length vs = length (select ys bs))
      then Ok (mask_assign ys bs vs)
      else match vs with
           | [c] => Ok (mask_fill ys bs c)
           | _ => Raise ValueError
           end
  end.

(** The loop of [np.piecewise]: a constant is stored under its mask; a
    callable is applied to the selected elements, and only when there
    are some. *)
Fixpoint piecewise_loop (xs ys : list float)
    (cfs : list (list bool * pwfunc)) : result (list float) :=
  match cfs with
  | [] => Ok ys
  | (bs, fn) :: rest =>
      if decide (length bs = length xs) then
        ys' ← match fn with
              | Constant c => Ok (mask_fill ys bs c)
              | Callable f =>
                  match select xs bs with
                  | [] => Ok ys
                  | vals => r ← f (NdArray vals); mask_store ys bs r
                  end
              end;
        piecewise_loop xs ys' rest
      else Raise IndexError
  end.

Fixpoint none_of (n : nat) (conds : list (list bool)) : list bool :=
  match n with
  | O => []
  | S n' =>
      negb (existsb (fun bs => default false (head bs)) conds)
      :: none_of n' (map (drop 1) conds)
  end.

Definition piecewise (x : pyval) (condlist : list pycond)
    (funclist : list pwfunc) : result pyval :=
  let xs := as_list x in
  let conds := map cond_list condlist in
  conds' ←
    (if decide (length conds = length funclist) then Ok conds
     else if decide (S (length conds) = length funclist)
          then Ok (conds ++ [none_of (length xs) conds])
          else Raise ValueError);
  ys ← piecewise_loop xs (map (fun _ => 0) xs) (zip conds' funclist);
  Ok match x with
     | NdArray _ => NdArray ys
     | _ => NpFloat (default 0 (head ys))
     end.

(** [np.amax] and [np.amin] of a sequence: the reduction of
    [np.maximum] / [np.minimum], which hand a nan on; an empty sequence
    has no maximum. *)
Definition np_maximum (a b : float) : float :=
  if (b <=? a) || is_nan a then a else b.
Definition np_minimum (a b : float) : float :=
  if (a <=? b) || is_nan a then a else b.

Definition np_amax (xs : list float) : result float :=
  match xs with
  | [] => Raise ValueError
  | x :: xs' => Ok (fold_left np_maximum xs' x)
  end.
Definition np_amin (xs : list float) : result float :=
  match xs with
  | [] => Raise ValueError
  | x :: xs' => Ok (fold_left np_minimum xs' x)
  end.

(** [float(m[i])] *)
Definition float_ (m : list float) (i : nat) : result float :=
  match m !! i with
  | Some x => Ok x
  | None => Raise IndexError
  end.

(** ** The module *)

(** A Python function object: its [__name__] and its body. *)
Record pyfunction : Type := Def {
  fn_name : string;
  fn_call : list float -> pyval -> result pyval
}.

Definition helper (A : Type) : Type :=
  list float -> list float -> result A.

Record variogram_model : Type := Build_variogram_model {
  name : string;
  function : pyfunction;
  parameters : option (list float);
  parameter_names : list string;
  bnds : option (helper (list float * list float));
  x0 : option (helper (list float))
}.

(** [variogram_model.__init__] *)
Definition variogram_model_init (function : pyfunction)
    (parameters : option (list float)) (parameter_names : list string)
    (bnds : option (helper (list float * list float)))
    (x0 : option (helper (list float))) : variogram_model :=
  {| name := fn_name function;
     function := function;
     parameters := parameters;
     parameter_names := parameter_names;
     bnds := bnds;
     x0 := x0 |}.

Definition _add_model (model : variogram_model)
    (variogram_models : gmap string variogram_model)
  : gmap string variogram_model :=
  <[name model := model]> variogram_models.

Section Models.
Context `{L : Libm}.

Definition linear_variogram_model (m : list float) (d : pyval)
  : result pyval :=
  slope ← float_ m 0;
  nugget ← float_ m 1;
  t ← py_mul (PyFloat slope) d;
  py_add t (PyFloat nugget).

(** [np.amax] and [np.amin] return numpy scalars, so the arithmetic of
    the helpers below is numpy's: it never raises. *)
Definition linear_variogram_model_bnds : helper (list float * list float) :=
  fun lags semivariance =>
  smax ← np_amax semivariance;
  Ok ([0; 0], [infinity; smax]).

Definition linear_variogram_model_x0 : helper (list float) :=
  fun lags semivariance =>
  smax ← np_amax semivariance;
  smin ← np_amin semivariance;
  lmax ← np_amax lags;
  lmin ← np_amin lags;
  smin' ← np_amin semivariance;
  Ok [(smax - smin) / (lmax - lmin); smin'].

Definition power_variogram_model (m : list float) (d : pyval)
  : result pyval :=
  scale ← float_ m 0;
  exponent ← float_ m 1;
  nugget ← float_ m 2;
  p ← py_power d (PyFloat exponent);
  t ← py_mul (PyFloat scale) p;
  py_add t (PyFloat nugget).

Definition power_variogram_model_bnds : helper (list float * list float) :=
  fun lags semivariance =>
  smax ← np_amax semivariance;
  Ok ([0; 0.0001; 0], [infinity; 1.999; smax]).

Definition power_variogram_model_x0 : helper (list float) :=
  fun lags semivariance =>
  smax ← np_amax semivariance;
  smin ← np_amin semivariance;
  lmax ← np_amax lags;
  lmin ← np_amin lags;
  smin' ← np_amin semivariance;
  Ok [(smax - smin) / (lmax - lmin); 1.1; smin'].

Definition gaussian_variogram_model (m : list float) (d : pyval)
  : result pyval :=
  psill ← float_ m 0;
  range_ ← float_ m 1;
  nugget ← float_ m 2;
  d2 ← py_power d (PyFloat 2);
  r4 ← py_mul (PyFloat range_) (PyFloat 4);
  r47 ← py_div r4 (PyFloat 7);
  den ← py_power r47 (PyFloat 2);
  q ← py_div (py_neg d2) den;
  s ← py_sub (PyFloat 1) (np_exp q);
  t ← py_mul (PyFloat psill) s;
  py_add t (PyFloat nugget).

Definition gaussian_variogram_model_bnds : helper (list float * list float) :=
  fun lags semivariance =>
  smax ← np_amax semivariance;
  lmax ← np_amax lags;
  smax' ← np_amax semivariance;
  Ok ([0; 0; 0], [10 * smax; lmax; smax']).

Definition gaussian_variogram_model_x0 : helper (list float) :=
  fun lags semivariance =>
  smax ← np_amax semivariance;
  smin ← np_amin semivariance;
  lmax ← np_amax lags;
  smin' ← np_amin semivariance;
  Ok [smax - smin; 0.25 * lmax; smin'].

Definition exponential_variogram_model (m : list float) (d : pyval)
  : result pyval :=
  psill ← float_ m 0;
  range_ ← float_ m 1;
  nugget ← float_ m 2;
  r3 ← py_div (PyFloat range_) (PyFloat 3);
  q ← py_div (py_neg d) r3;
  s ← py_sub (PyFloat 1) (np_exp q);
  t ← py_mul (PyFloat psill) s;
  py_add t (PyFloat nugget).

Definition spherical_variogram_model (m : list float) (d : pyval)
  : result pyval :=
  psill ← float_ m 0;
  range_ ← float_ m 1;
  nugget ← float_ m 2;
  piecewise d [py_le d range_; py_gt d range_]
    [Callable (fun x =>
       x3 ← py_mul (PyFloat 3) x;
       r2 ← py_mul (PyFloat 2) (PyFloat range_);
       a ← py_div x3 r2;
       xc ← py_power x (PyFloat 3);
       rc ← py_power (PyFloat range_) (PyFloat 3);
       rc2 ← py_mul (PyFloat 2) rc;
       b ← py_div xc rc2;
       s ← py_sub a b;
       t ← py_mul (PyFloat psill) s;
       py_add t (PyFloat nugget));
     Constant (psill + nugget)].

Definition hole_effect_variogram_model (m : list float) (d : pyval)
  : result pyval :=
  psill ← float_ m 0;
  range_ ← float_ m 1;
  nugget ← float_ m 2;
  r3 ← py_div (PyFloat range_) (PyFloat 3);
  q ← py_div d r3;
  u ← py_sub (PyFloat 1) q;
  r3' ← py_div (PyFloat range_) (PyFloat 3);
  q' ← py_div (py_neg d) r3';
  v ← py_mul u (np_exp q');
  s ← py_sub (PyFloat 1) v;
  t ← py_mul (PyFloat psill) s;
  py_add t (PyFloat nugget).

(** [np.float] is the builtin [float] under an alias of numpy. *)
Definition gamma_rayleigh_nuggetless_variogram_model (m : list float)
    (d : pyval) : result pyval :=
  sill ← float_ m 0;
  falloff ← float_ m 1;
  beta ← float_ m 2;
  fd ← py_mul (PyFloat falloff) d;
  fd' ← py_mul (PyFloat falloff) d;
  omfd ← py_sub (PyFloat 1) fd';
  bo ← py_mul (PyFloat beta) omfd;
  bfd2 ← py_mul bo omfd;
  sf ← py_mul (PyFloat sill) fd;
  e ← py_sub omfd bfd2;
  py_mul sf (np_exp e).

Definition gamma_rayleigh_nuggetless_variogram_model_bnds
  : helper (list float * list float) :=
  fun lags semivariance => Ok ([0; 0; 0], [1000; 10; 10]).

Definition gamma_rayleigh_nuggetless_variogram_model_x0
  : helper (list float) :=
  fun lags semivariance => Ok [2; 0.01; 0.0001].

(** The seven descriptors, in the order the module registers them. *)
Definition linear_model : variogram_model :=
  variogram_model_init
    (Def "linear_variogram_model" linear_variogram_model) None
    ["slope"; "nugget"]
    (Some linear_variogram_model_bnds) (Some linear_variogram_model_x0).

Definition power_model : variogram_model :=
  variogram_model_init
    (Def "power_variogram_model" power_variogram_model) None
    ["scale"; "exponent"; "nugget"]
    (Some power_variogram_model_bnds) (Some power_variogram_model_x0).

Definition gaussian_model : variogram_model :=
  variogram_model_init
    (Def "gaussian_variogram_model" gaussian_variogram_model) None
    ["psill"; "range_"; "nugget"]
    (Some gaussian_variogram_model_bnds) (Some gaussian_variogram_model_x0).

Definition exponential_model : variogram_model :=
  variogram_model_init
    (Def "exponential_variogram_model" exponential_variogram_model) None
    ["psill"; "range_"; "nugget"]
    (Some gaussian_variogram_model_bnds) (Some gaussian_variogram_model_x0).

Definition spherical_model : variogram_model :=
  variogram_model_init
    (Def "spherical_variogram_model" spherical_variogram_model) None
    ["psill"; "range_"; "nugget"]
    (Some gaussian_variogram_model_bnds) (Some gaussian_variogram_model_x0).

Definition hole_effect_model : variogram_model :=
  variogram_model_init
    (Def "hole_effect_variogram_model" hole_effect_variogram_model) None
    ["psill"; "range_"; "nugget"]
    (Some gaussian_variogram_model_bnds) (Some gaussian_variogram_model_x0).

Definition gamma_rayleigh_nuggetless_model : variogram_model :=
  variogram_model_init
    (Def "gamma_rayleigh_nuggetless_variogram_model"
         gamma_rayleigh_nuggetless_variogram_model) None
    ["sill"; "falloff"; "beta"]
    (Some gamma_rayleigh_nuggetless_variogram_model_bnds)
    (Some gamma_rayleigh_nuggetless_variogram_model_x0).

(** The module-level dictionary after the seven [_add_model] calls. *)
Definition variogram_models : gmap string variogram_model :=
  _add_model gamma_rayleigh_nuggetless_model
    (_add_model hole_effect_model
      (_add_model spherical_model
        (_add_model exponential_model
          (_add_model gaussian_model
            (_add_model power_model
              (_add_model linear_model ∅)))))).

End Models.

(** [variogram_models[key]] *)
Definition lookup_model (key : string)
    (reg : gmap string variogram_model) : result variogram_model :=
  match reg !! key with
  | Some model => Ok model
  | None => Raise KeyError
  end.

(** ** A reference libm

    A small portable [exp] and [pow] on binary64, with the special values
    of Annex F, used to run the models on concrete inputs.  The general
    theorems below hold for every [Libm] that meets [LibmSpec]. *)
Module RefLibm.

Definition square (x : float) : float := x * x.

(** [exp x = (exp (x / 1024)) ^ 1024], the inner value by its Taylor
    polynomial. *)
Definition ref_exp (x : float) : float :=
  if is_nan x then nan
  else if 710 <? x then infinity
  else if x <? -746 then 0
  else
    let t := x / 1024 in
    let p := 1 + t * (1 + t / 2 * (1 + t / 3 * (1 + t / 4 * (1 + t / 5 *
             (1 + t / 6 * (1 + t / 7 * (1 + t / 8 * (1 + t / 9 *
             (1 + t / 10))))))))) in
    Nat.iter 10 square p.

Definition Z2float (z : Z) : float :=
  if (z <? 0)%Z then - of_uint63 (Uint63.of_Z (- z))
  else of_uint63 (Uint63.of_Z z).

(** [log x] for a finite [x > 0]: [x = m * 2^e] with [m] near 1, and
    [log m = 2 atanh ((m - 1) / (m + 1))]. *)
Definition ref_log (x : float) : float :=
  let '(m0, e0) := Z.frexp x in
  let '(m, e) := if m0 <? 0.7071067811865476 then (2 * m0, (e0 - 1)%Z)
                 else (m0, e0) in
  let s := (m - 1) / (m + 1) in
  let s2 := s * s in
  let series := 1 + s2 * (1 / 3 + s2 * (1 / 5 + s2 * (1 / 7 + s2 * (1 / 9 +
                s2 * (1 / 11 + s2 * (1 / 13 + s2 * (1 / 15 + s2 * (1 / 17
                + s2 * (1 / 19 + s2 * (1 / 21)))))))))) in
  Z2float e * 0.6931471805599453 + 2 * s * series.

(** The integer a float denotes, when it is one of moderate size. *)
Definition small_integer (y : float) : option Z :=
  match Prim2SF y with
  | S754_finite s m e =>
      if SF_is_integer (S754_finite s m e) && (e <=? 0)%Z
      then Some (cond_Zopp s (Z.pos m / 2 ^ (- e)))
      else None
  | _ => None
  end.

Definition pow_pos (a : float) (n : positive) : float :=
  Pos.iter_op PrimFloat.mul n a.

(** [a ** y] for a finite [a > 0] *)
Definition pow_positive (a y : float) : float :=
  match small_integer y with
  | Some (Zpos n) => if (n <=? 64)%positive then pow_pos a n
                     else ref_exp (y * ref_log a)
  | Some (Zneg n) => if (n <=? 64)%positive then 1 / pow_pos a n
                     else ref_exp (y * ref_log a)
  | _ => ref_exp (y * ref_log a)
  end.

Definition ref_pow (x y : float) : float :=
  if is_zero y then 1
  else if x =? 1 then 1
  else if is_nan x || is_nan y then nan
  else if is_zero x then
    if 0 <? y then (if is_odd_integer y then x else 0)
    else if is_odd_integer y then 1 / x else infinity
  else if is_infinity y then
    let a := abs x in
    if a =? 1 then 1
    else if Bool.eqb (0 <? y) (1 <? a) then infinity else 0
  else if is_infinity x then
    if 0 <? x then (if 0 <? y then infinity else 0)
    else if 0 <? y then (if is_odd_integer y then neg_infinity else infinity)
    else if is_odd_integer y then neg_zero else 0
  else if 0 <? x then pow_positive x y
  else if is_integer y then
    if is_odd_integer y then - pow_positive (- x) y
    else pow_positive (- x) y
  else nan.

#[export] Instance ref_libm : Libm :=
  {| libm_exp := ref_exp; libm_pow := ref_pow |}.

End RefLibm.

(** ** Vocabulary of the statements *)

(** The result of applying [g] at every distance: an array stays an
    array, a scalar comes back as a numpy scalar. *)
Definition elementwise (g : float -> float) (d : pyval) : pyval :=
  match d with
  | NdArray xs => NdArray (map g xs)
  | PyFloat x | NpFloat x => NpFloat (g x)
  end.

(** The distance 0 as a scalar, Python's or numpy's. *)
Definition zero_distance (d : pyval) : Prop :=
  d = PyFloat 0 \/ d = NpFloat 0.

(** [g] at every distance, the kind of the distance kept. *)
Definition pointwise (g : float -> float) (d : pyval) : pyval :=
  match d with
  | PyFloat x => PyFloat (g x)
  | NpFloat x => NpFloat (g x)
  | NdArray xs => NdArray (map g xs)
  end.

(** An empty sequence of lags or semivariances. *)
Definition no_data (l : list float) : bool :=
  match l with
  | [] => true
  | _ => false
  end.


(** A run of [_add_model] calls, in order. *)
Definition register_all (models : list variogram_model)
    (reg : gmap string variogram_model) : gmap string variogram_model :=
  fold_left (fun reg model => _add_model model reg) models reg.

(** [c == y] for a call [c] that returned a scalar. *)
Definition equals (c : result pyval) (y : float) : bool :=
  match c with
  | Ok (PyFloat v) | Ok (NpFloat v) => v =? y
  | _ => false
  end.

(** The value the spherical model is specified to take at one distance
    [x], [p] standing for [range_**3.]; a nan distance satisfies neither
    condition and keeps the 0 of [np.piecewise]. *)
Definition spherical_point `{L : Libm} (psill range_ nugget p x : float)
  : float :=
  if range_ <? x then psill + nugget
  else if x <=? range_
       then psill * ((3 * x) / (2 * range_) - np_power x 3 / (2 * p))
            + nugget
       else 0.

(** [f] reads exactly the parameters [m[0]] .. [m[n-1]]: a shorter [m] is
    an [IndexError], nothing beyond index [n-1] matters, and some [m] of
    length [n] is accepted. *)
Definition parameters_consumed
    (f : list float -> pyval -> result pyval) (n : nat) : Prop :=
  (forall m d, length m < n -> f m d = Raise IndexError) /\
  (forall m d, f (take n m) d = f m d) /\
  (exists m d, length m = n /\ raises (f m d) = false).

(** A helper of a descriptor applied to data, when the descriptor has
    one. *)
Definition call {A} (h : option (helper A)) (lags semivariance : list float)
  : option (result A) :=
  (fun f => f lags semivariance) <$> h.

Definition model_names : list string :=
  ["linear_variogram_model"; "power_variogram_model";
   "gaussian_variogram_model"; "exponential_variogram_model";
   "spherical_variogram_model"; "hole_effect_variogram_model";
   "gamma_rayleigh_nuggetless_variogram_model"]%string.

Definition short_names : list string :=
  ["linear"; "power"; "gaussian"; "exponential"; "spherical";
   "hole_effect"; "gamma_rayleigh_nuggetless"]%string.

(** A descriptor that reuses the name of the linear model, for the
    overwrite of a registry entry. *)
Definition linear_override `{L : Libm} : variogram_model :=
  variogram_model_init
    (Def "linear_variogram_model" power_variogram_model) None
    ["scale"; "exponent"; "nugget"]%string None None.

(** ** Binary64 facts

    The kernel's operations read through their specification
    ([Prim2SF] and the [SF...] functions of [SpecFloat]). *)

Lemma SFcompare_refl x : x <> S754_nan -> SFcompare x x = Some Eq.
Proof.
  destruct x as [s|s| |s m e]; try done; intros _; simpl.
  - by destruct s.
  - destruct s; rewrite Z.compare_refl;
      change (Pos.compare_cont Eq m m) with (Pos.compare m m);
      by rewrite Pos.compare_refl.
Qed.

Lemma is_nan_spec x : is_nan x = true <-> Prim2SF x = S754_nan.
Proof.
  unfold is_nan. rewrite FloatAxioms.eqb_spec. unfold SFeqb. split.
  - destruct (Prim2SF x) as [s|s| |s m e] eqn:E; try done;
      by rewrite SFcompare_refl.
  - by intros ->.
Qed.

Lemma is_nan_false x : is_nan x = false <-> Prim2SF x <> S754_nan.
Proof.
  rewrite <- is_nan_spec. by destruct (is_nan x).
Qed.

Lemma is_zero_spec x : is_zero x = true <-> exists s, Prim2SF x = S754_zero s.
Proof.
  unfold is_zero. rewrite FloatAxioms.eqb_spec.
  change (Prim2SF zero) with (S754_zero false). split.
  - destruct (Prim2SF x) as [s|s| |s m e]; simpl; eauto; try done;
      by destruct s.
  - by intros [s ->].
Qed.

Lemma is_zero_false x :
  is_zero x = false <-> forall s, Prim2SF x <> S754_zero s.
Proof.
  split.
  - intros H s E. assert (is_zero x = true) by (apply is_zero_spec; eauto).
    congruence.
  - intros H. destruct (is_zero x) eqn:E; [|done].
    apply is_zero_spec in E as [s E]. by destruct (H s).
Qed.

Lemma is_infinity_spec x :
  is_infinity x = true <-> exists s, Prim2SF x = S754_infinity s.
Proof.
  unfold is_infinity. rewrite FloatAxioms.eqb_spec, abs_spec.
  change (Prim2SF infinity) with (S754_infinity false). split.
  - destruct (Prim2SF x) as [s|s| |s m e]; simpl; eauto; done.
  - by intros [s ->].
Qed.

Lemma is_finite_spec x :
  is_finite x = true <->
  (exists s, Prim2SF x = S754_zero s) \/
  (exists s m e, Prim2SF x = S754_finite s m e).
Proof.
  unfold is_finite. rewrite negb_true_iff, orb_false_iff, is_nan_false.
  split.
  - intros [Hn Hi]. destruct (Prim2SF x) as [s|s| |s m e] eqn:E; eauto.
    + assert (is_infinity x = true) by (apply is_infinity_spec; eauto).
      congruence.
    + done.
  - intros H. split.
    + destruct H as [[s ->]|(s & m & e & ->)]; done.
    + destruct (is_infinity x) eqn:E; [|done].
      apply is_infinity_spec in E as [s E].
      destruct H as [[? ?]|(? & ? & ? & ?)]; congruence.
Qed.



(** The operands of a goal or hypothesis, seen through [Prim2SF]. *)
Ltac sf_view :=
  repeat match goal with
  | H : is_zero _ = true |- _ => apply is_zero_spec in H as [? H]
  | H : is_zero _ = false |- _ => rewrite is_zero_false in H
  | H : is_nan _ = true |- _ => apply is_nan_spec in H
  | H : is_nan _ = false |- _ => rewrite is_nan_false in H
  | H : is_finite _ = true |- _ =>
      apply is_finite_spec in H as [[? H]|(? & ? & ? & H)]
  | H : is_infinity _ = true |- _ => apply is_infinity_spec in H as [? H]
  end.

Lemma mul_zero_r x z :
  is_finite x = true -> is_zero z = true -> is_zero (x * z) = true.
Proof.
  intros Hx Hz. apply is_zero_spec. rewrite mul_spec. sf_view.
  - rewrite Hx, Hz. simpl. eauto.
  - rewrite Hx, Hz. simpl. eauto.
Qed.

Lemma mul_zero_l z x :
  is_zero z = true -> is_finite x = true -> is_zero (z * x) = true.
Proof.
  intros Hz Hx. apply is_zero_spec. rewrite mul_spec. sf_view.
  - rewrite Hx, Hz. simpl. eauto.
  - rewrite Hx, Hz. simpl. eauto.
Qed.





Lemma one_sub_zero z : is_zero z = true -> 1 - z = 1.
Proof.
  intros Hz. apply Prim2SF_inj. rewrite sub_spec. sf_view. by rewrite Hz.
Qed.


Lemma ltb_zero_pos y :
  (0 <? y) = true ->
  is_zero y = false /\ is_nan y = false /\ (y <? 0) = false.
Proof.
  rewrite is_zero_false, is_nan_false, !ltb_spec.
  change (Prim2SF 0) with (S754_zero false).
  destruct (Prim2SF y) as [s|s| |s m e]; simpl; try done;
    destruct s; done.
Qed.

Lemma SFcompare_antisym x y :
  SFcompare y x = CompOpp <$> SFcompare x y.
Proof.
  destruct x as [s|s| |s m e], y as [s'|s'| |s' m' e']; simpl; try done;
    try (by destruct s); try (by destruct s'); try (by destruct s, s').
  destruct s, s'; simpl; try done; f_equal;
    change (PosDef.Pos.compare_cont Eq m' m) with (Pos.compare m' m);
    change (PosDef.Pos.compare_cont Eq m m') with (Pos.compare m m');
    rewrite (Z.compare_antisym e e'), (Pos.compare_antisym m m');
    destruct (e ?= e')%Z; simpl; try done;
    by rewrite CompOpp_involutive.
Qed.


Lemma SFmul_one_r s m e :
  bounded prec emax m e = true ->
  SFmul prec emax (S754_finite s m e) (Prim2SF 1) = S754_finite s m e.
Proof.
  unfold bounded, canonical_mantissa. intros [Hc Hb]%andb_true_iff.
  apply Z.eqb_eq in Hc.
  change (Prim2SF 1) with (S754_finite false 4503599627370496 (-52)).
  unfold SFmul. rewrite xorb_false_r, Pos.mul_comm.
  unfold binary_round_aux.
  assert (Hs : shr_fexp prec emax (Z.pos (4503599627370496 * m)) (e + -52) loc_Exact
               = ({| shr_m := Z.pos m; shr_r := false; shr_s := false |}, e)).
  { unfold shr_fexp.
    replace (fexp prec emax (Zdigits2 (Z.pos (4503599627370496 * m)) + (e + -52)) - (e + -52))%Z
      with 52%Z.
    - simpl. rewrite Pos.mul_1_l. f_equal. lia.
    - assert (Zdigits2 (Z.pos (4503599627370496 * m)) = Z.pos (digits2_pos m) + 52)%Z as ->.
      { simpl. rewrite Pos.mul_1_l. lia. }
      replace (Z.pos (digits2_pos m) + 52 + (e + -52))%Z
        with (Z.pos (digits2_pos m) + e)%Z by lia.
      rewrite Hc. lia. }
  rewrite Hs. simpl shr_m. simpl loc_of_shr_record. simpl round_nearest_even.
  unfold shr_fexp. simpl Zdigits2. rewrite Hc, Z.sub_diag. simpl.
  by rewrite Hb.
Qed.

Lemma mul_1_r x : x * 1 = x.
Proof.
  apply Prim2SF_inj. rewrite mul_spec. unfold SF64mul.
  pose proof (Prim2SF_valid x) as Hv.
  destruct (Prim2SF x) as [s|s| |s m e] eqn:E.
  - by destruct s.
  - by destruct s.
  - done.
  - by apply SFmul_one_r.
Qed.

(** ** Masks and [np.piecewise] *)

Lemma broadcast_eq_length f xs ys :
  length xs = length ys -> broadcast f xs ys = Ok (zip_with f xs ys).
Proof. intros H. unfold broadcast. by case_decide. Qed.

Lemma zip_with_map_same {A B C D} (f : B -> C -> D) (g : A -> B)
    (h : A -> C) (l : list A) :
  zip_with f (map g l) (map h l) = map (fun x => f (g x) (h x)) l.
Proof. induction l as [|x l IH]; simpl; [done|]. by rewrite IH. Qed.

Lemma select_length (c : float -> bool) xs ys :
  length ys = length xs ->
  length (select ys (map c xs)) = length (select xs (map c xs)).
Proof.
  revert ys. induction xs as [|x xs IH]; intros [|y ys] Hl; simpl in *;
    try done.
  destruct (c x); simpl; rewrite IH; auto.
Qed.

Lemma mask_assign_map (c : float -> bool) (h : float -> float) xs ys :
  length ys = length xs ->
  mask_assign ys (map c xs) (map h (select xs (map c xs)))
    = zip_with (fun x y => if c x then h x else y) xs ys.
Proof.
  revert ys. induction xs as [|x xs IH]; intros [|y ys] Hl; simpl in *;
    try done.
  destruct (c x); simpl; rewrite IH; auto.
Qed.

Lemma mask_assign_nil ys bs : mask_assign ys bs [] = ys.
Proof.
  revert bs. induction ys as [|y ys IH]; intros [|b bs]; simpl; try done.
  destruct b; by rewrite IH.
Qed.

Lemma mask_fill_map (c : float -> bool) (v : float) xs ys :
  length ys = length xs ->
  mask_fill ys (map c xs) v = zip_with (fun x y => if c x then v else y) xs ys.
Proof.
  revert ys. induction xs as [|x xs IH]; intros [|y ys] Hl; simpl in *;
    try done.
  rewrite IH; auto.
Qed.

(** The loop on a callable that works elementwise followed by a
    constant: the later entry wins where both masks hold. *)
Lemma piecewise_loop_two (c1 c2 : float -> bool) (f : pyval -> result pyval)
    (h : float -> float) (v : float) xs ys :
  length ys = length xs ->
  (forall vals, vals <> [] -> f (NdArray vals) = Ok (NdArray (map h vals))) ->
  piecewise_loop xs ys [(map c1 xs, Callable f); (map c2 xs, Constant v)]
    = Ok (zip_with (fun x y => if c2 x then v else if c1 x then h x else y)
            xs ys).
Proof.
  intros Hl Hf. simpl. rewrite !length_map.
  rewrite decide_True by done.
  assert (Hfirst :
    match select xs (map c1 xs) with
    | [] => Ok ys
    | vals => r ← f (NdArray vals); mask_store ys (map c1 xs) r
    end = Ok (zip_with (fun x y => if c1 x then h x else y) xs ys)).
  { rewrite <- mask_assign_map by done.
    destruct (select xs (map c1 xs)) as [|x0 vals] eqn:E.
    - by rewrite mask_assign_nil.
    - rewrite Hf by done. cbn [mbind result_bind mask_store].
      rewrite length_map, <- E, (select_length c1 xs ys) by done.
      by rewrite decide_True. }
  rewrite Hfirst. simpl. rewrite decide_True by done. simpl.
  rewrite mask_fill_map by (by rewrite length_zip_with, Hl, Nat.min_id).
  f_equal. clear Hfirst Hf. revert ys Hl.
  induction xs as [|x xs IH]; intros [|y ys] Hl; simpl in *; try done.
  rewrite IH by lia. done.
Qed.

Section ModelFacts.
Context `{L : Libm}.

Lemma piecewise_two (c1 c2 : float -> float -> bool)
    (f : pyval -> result pyval) (h : float -> float) (v r : float) d :
  (forall vals, vals <> [] -> f (NdArray vals) = Ok (NdArray (map h vals))) ->
  piecewise d [py_cmp c1 d r; py_cmp c2 d r] [Callable f; Constant v]
    = Ok (elementwise
            (fun x => if c2 x r then v else if c1 x r then h x else 0) d).
Proof.
  intros Hf. unfold piecewise. simpl length. rewrite decide_True by done.
  cbn [mbind result_bind].
  assert (Hloop : forall xs,
    piecewise_loop xs (map (fun _ => 0) xs)
      (zip [map (fun x => c1 x r) xs; map (fun x => c2 x r) xs]
           [Callable f; Constant v])
    = Ok (map (fun x => if c2 x r then v else if c1 x r then h x else 0) xs)).
  { intros xs. cbn [zip zip_with].
    rewrite (piecewise_loop_two (fun x => c1 x r) (fun x => c2 x r) f h v)
      by (by rewrite ?length_map).
    f_equal. induction xs as [|x xs IH]; simpl; [done|]. by rewrite IH. }
  destruct d as [x|x|xs].
  - change (piecewise_loop _ _ _) with
      (piecewise_loop [x] (map (fun _ => 0) [x])
         (zip [map (fun x => c1 x r) [x]; map (fun x => c2 x r) [x]]
              [Callable f; Constant v])).
    by rewrite Hloop.
  - change (piecewise_loop _ _ _) with
      (piecewise_loop [x] (map (fun _ => 0) [x])
         (zip [map (fun x => c1 x r) [x]; map (fun x => c2 x r) [x]]
              [Callable f; Constant v])).
    by rewrite Hloop.
  - change (piecewise_loop _ _ _) with
      (piecewise_loop xs (map (fun _ => 0) xs)
         (zip [map (fun x => c1 x r) xs; map (fun x => c2 x r) xs]
              [Callable f; Constant v])).
    by rewrite Hloop.
Qed.

Lemma spherical_closed_form psill range_ nugget rest p d :
  py_pow range_ 3 = Ok p ->
  spherical_variogram_model (psill :: range_ :: nugget :: rest) d
    = Ok (elementwise (spherical_point psill range_ nugget p) d).
Proof.
  intros Hp. unfold spherical_variogram_model. cbn [float_ lookup list_lookup mbind result_bind].
  unfold py_le, py_gt.
  rewrite (piecewise_two PrimFloat.leb (fun x y => PrimFloat.ltb y x) _
    (fun x => psill * ((3 * x) / (2 * range_) - np_power x 3 / (2 * p))
              + nugget)).
  - done.
  - intros vals _. simpl. rewrite Hp. simpl.
    rewrite broadcast_eq_length by (by rewrite !length_map).
    simpl. do 2 f_equal.
    induction vals as [|x vals IH]; simpl; [done|]. by rewrite IH.
Qed.

End ModelFacts.

Create HintDb models.
Hint Unfold linear_variogram_model power_variogram_model
  gaussian_variogram_model exponential_variogram_model
  spherical_variogram_model hole_effect_variogram_model
  gamma_rayleigh_nuggetless_variogram_model : models.

Ltac numpy_closed_form xs :=
  autounfold with models; simpl;
  repeat (rewrite broadcast_eq_length
            by (repeat first [ rewrite length_zip_with | rewrite length_map
                             | rewrite Nat.min_id ]; done);
          simpl);
  do 2 f_equal;
  let IH := fresh "IH" in
  induction xs as [|? xs IH]; simpl; [done | by rewrite IH].

Section Evaluation.
Context `{L : Libm}.


Lemma nan_sub_l y : nan - y = nan.
Proof. apply Prim2SF_inj. by rewrite sub_spec. Qed.

(** At a zero range the boundary value is nan whatever [pow] returns. *)
Lemma spherical_zero_range_is_nan :
  spherical_variogram_model [1; 0; 0] (NdArray [0]) = Ok (NdArray [nan]).
Proof.
  rewrite (spherical_closed_form 1 0 0 [] 0) by reflexivity.
  simpl. unfold spherical_point.
  change (0 <? 0) with false. change (0 <=? 0) with true.
  change (3 * 0 / (2 * 0)) with nan. by rewrite nan_sub_l.
Qed.

(** ** Distances held by numpy *)

Lemma linear_numpy slope nugget rest d :
  is_numpy d = true ->
  linear_variogram_model (slope :: nugget :: rest) d
    = Ok (elementwise (fun x => slope * x + nugget) d).
Proof.
  destruct d as [x|x|xs]; [done|done|]. intros _. numpy_closed_form xs.
Qed.


Lemma gaussian_numpy psill range_ nugget rest q d :
  is_numpy d = true ->
  py_pow (range_ * 4 / 7) 2 = Ok q ->
  gaussian_variogram_model (psill :: range_ :: nugget :: rest) d
    = Ok (elementwise
            (fun x => psill * (1 - libm_exp (- np_power x 2 / q)) + nugget)
            d).
Proof.
  destruct d as [x|x|xs]; [done| |]; intros _ Hq;
    unfold gaussian_variogram_model; simpl; rewrite Hq.
  - done.
  - numpy_closed_form xs.
Qed.





(** A Python float distance with a zero range divides by the Python
    float 0.0. *)
Lemma gaussian_python_zero_range :
  gaussian_variogram_model [1; 0; 0] (PyFloat 1) = Raise ZeroDivisionError.
Proof. reflexivity. Qed.

End Evaluation.

(** ** Distance zero *)

Local Open Scope float_scope.

Section ZeroDistance.
Context {L : Libm} {HL : LibmSpec L}.


Lemma py_truediv_ok x y : is_zero y = false -> py_truediv x y = Ok (x / y).
Proof. unfold py_truediv. by intros ->. Qed.








End ZeroDistance.

Section GammaRayleigh.
Context `{L : Libm}.

(** C9 (as amended).  Gamma-Rayleigh model at distance 0, a Python float
    or a numpy scalar: for a finite sill and falloff, and a beta for
    which [exp (1 - beta)] is finite, the result compares equal to 0 (it
    is [sill * (falloff * 0) * exp (1 - beta)], a signed zero). *)
Theorem gamma_rayleigh_zero_distance (sill falloff beta : float)
    (d : pyval) :
  zero_distance d ->
  is_finite sill = true -> is_finite falloff = true ->
  is_finite (libm_exp (1 - beta)) = true ->
  equals
    (gamma_rayleigh_nuggetless_variogram_model [sill; falloff; beta] d) 0
    = true.
Proof.
  intros Hd Hs Hf He.
  assert (Hz : is_zero (falloff * 0) = true) by (by apply mul_zero_r).
  destruct Hd as [-> | ->];
    unfold gamma_rayleigh_nuggetless_variogram_model; cbn;
    rewrite (one_sub_zero _ Hz), !mul_1_r;
    (apply (mul_zero_l (sill * (falloff * 0))); [|done]);
    by apply mul_zero_r.
Qed.

End GammaRayleigh.

(** ** Helpers on degenerate data *)






Lemma np_amax_ok (l : list float) : l <> [] -> exists v, np_amax l = Ok v.
Proof. destruct l; [done|]. simpl. eauto. Qed.

Lemma np_amin_ok (l : list float) : l <> [] -> exists v, np_amin l = Ok v.
Proof. destruct l; [done|]. simpl. eauto. Qed.

(** ** The registry *)

Local Open Scope string_scope.

Section Registry.
Context `{L : Libm}.

Lemma registry_lookup key :
  variogram_models !! key =
    if decide (key = "gamma_rayleigh_nuggetless_variogram_model")
    then Some gamma_rayleigh_nuggetless_model
    else if decide (key = "hole_effect_variogram_model")
    then Some hole_effect_model
    else if decide (key = "spherical_variogram_model")
    then Some spherical_model
    else if decide (key = "exponential_variogram_model")
    then Some exponential_model
    else if decide (key = "gaussian_variogram_model")
    then Some gaussian_model
    else if decide (key = "power_variogram_model")
    then Some power_model
    else if decide (key = "linear_variogram_model")
    then Some linear_model
    else None.
Proof.
  unfold variogram_models, _add_model. simpl name.
  repeat (rewrite lookup_insert; case_decide; [by subst|]).
  repeat (case_decide; [congruence|]).
  apply lookup_empty.
Qed.

Lemma registry_size : size variogram_models = 7%nat.
Proof.
  unfold variogram_models, _add_model. simpl name.
  repeat (rewrite map_size_insert_None;
    [| rewrite ?lookup_insert_ne by done; apply lookup_empty ]).
  by rewrite map_size_empty.
Qed.

Lemma registry_cases key model :
  variogram_models !! key = Some model ->
  (key, model) ∈
    [("linear_variogram_model", linear_model);
     ("power_variogram_model", power_model);
     ("gaussian_variogram_model", gaussian_model);
     ("exponential_variogram_model", exponential_model);
     ("spherical_variogram_model", spherical_model);
     ("hole_effect_variogram_model", hole_effect_model);
     ("gamma_rayleigh_nuggetless_variogram_model",
      gamma_rayleigh_nuggetless_model)].
Proof.
  rewrite registry_lookup.
  repeat (case_decide; [intros [= <-]; subst key; set_solver|]).
  done.
Qed.

(** C10.  After module initialisation the registry holds exactly seven
    entries, its keys are exactly the seven full function names, every
    descriptor is stored under its own [name], which is the [__name__] of
    its function, and looking up a short model name raises [KeyError]. *)
Theorem registry_keys_are_function_names :
  size variogram_models = 7%nat /\
  (forall key, is_Some (variogram_models !! key) <-> key ∈ model_names) /\
  map_Forall (fun key model =>
    name model = key /\ fn_name (function model) = key) variogram_models /\
  Forall (fun short => lookup_model short variogram_models = Raise KeyError)
    short_names.
Proof.
  split; [apply registry_size|]. split; [|split].
  - intros key. rewrite registry_lookup. unfold model_names.
    repeat (case_decide; [subst key; split; [set_solver | eauto]|]).
    split; [by intros [? ?]|].
    rewrite !elem_of_cons, elem_of_nil.
    intros [?|[?|[?|[?|[?|[?|[?|[]]]]]]]]; congruence.
  - intros key model Hm. apply registry_cases in Hm.
    rewrite !elem_of_cons, elem_of_nil in Hm.
    destruct Hm as [[= -> ->]|[[= -> ->]|[[= -> ->]|[[= -> ->]|[[= -> ->]|
      [[= -> ->]|[[= -> ->]|[]]]]]]]]; done.
  - unfold short_names, lookup_model.
    repeat constructor; by rewrite registry_lookup.
Qed.

(** C6.  The exponential, spherical and hole-effect descriptors carry the
    bounds helper and the initial-guess helper of the gaussian
    descriptor, the very same functions; so their outputs agree with the
    gaussian ones on every lags and semivariance. *)
Theorem gaussian_helpers_are_shared :
  variogram_models !! "gaussian_variogram_model" = Some gaussian_model /\
  bnds gaussian_model = Some gaussian_variogram_model_bnds /\
  x0 gaussian_model = Some gaussian_variogram_model_x0 /\
  Forall (fun key => exists model,
      variogram_models !! key = Some model /\
      bnds model = bnds gaussian_model /\
      x0 model = x0 gaussian_model /\
      forall lags semivariance,
        call (bnds model) lags semivariance
          = call (bnds gaussian_model) lags semivariance /\
        call (x0 model) lags semivariance
          = call (x0 gaussian_model) lags semivariance)
    ["exponential_variogram_model"; "spherical_variogram_model";
     "hole_effect_variogram_model"].
Proof.
  split; [by rewrite registry_lookup|]. do 2 (split; [done|]).
  repeat constructor; eexists; (split; [by rewrite registry_lookup|]); done.
Qed.

End Registry.

(** C3.  Registering [second] under a name already taken by [first]
    overwrites: the lookup of that name returns [second], the registry is
    the one in which [first] was never registered (so [first] is reachable
    under no key, unless it was there before under another one), and the
    entries of all other names are unchanged; a registration under any
    name leaves the entries of the other names as they were. *)
Theorem last_registration_wins (reg : gmap string variogram_model)
    (first second : variogram_model) :
  name first = name second ->
  let reg' := _add_model second (_add_model first reg) in
  lookup_model (name second) reg' = Ok second /\
  reg' = _add_model second reg /\
  ((forall key, reg !! key <> Some first) ->
   first <> second -> forall key, reg' !! key <> Some first) /\
  (forall key, key <> name second ->
     lookup_model key reg' = lookup_model key reg) /\
  (forall model key, key <> name model ->
     lookup_model key (_add_model model reg) = lookup_model key reg).
Proof.
  intros Hn reg'. subst reg'. unfold lookup_model, _add_model.
  rewrite Hn, insert_insert_eq. split; [by rewrite lookup_insert_eq|].
  split; [done|]. split; [|split].
  - intros Hreg Hne key. destruct (decide (key = name second)) as [->|Hk].
    + rewrite lookup_insert_eq. congruence.
    + by rewrite lookup_insert_ne.
  - intros key Hk. by rewrite lookup_insert_ne.
  - intros model key Hk. by rewrite lookup_insert_ne.
Qed.

(** C8.  Linear model, lags [1,2,3,4] and semivariance [0.5,1.0,1.5,2.0]:
    the initial guess is exactly [0.5, 0.5], the slope being
    [(2.0-0.5)/(4-1)] and the nugget the least semivariance, and the
    bounds are exactly [([0,0],[inf,2.0])]. *)
Theorem linear_helpers_example :
  linear_variogram_model_x0 [1; 2; 3; 4] [0.5; 1; 1.5; 2] = Ok [0.5; 0.5] /\
  linear_variogram_model_bnds [1; 2; 3; 4] [0.5; 1; 1.5; 2]
    = Ok ([0; 0], [infinity; 2]) /\
  (2 - 0.5) / (4 - 1) = 0.5 /\
  np_amin [0.5; 1; 1.5; 2] = Ok 0.5.
Proof. repeat split; reflexivity. Qed.

(** ** Descriptors: parameter counts and helpers *)

Section Descriptors.
Context `{L : Libm}.

Ltac run_helper :=
  repeat match goal with
  | |- context [np_amax ?l] =>
      let v := fresh "v" in
      let E := fresh "E" in
      destruct (np_amax l) as [v|] eqn:E; cbn [mbind result_bind]
  | |- context [np_amin ?l] =>
      let v := fresh "v" in
      let E := fresh "E" in
      destruct (np_amin l) as [v|] eqn:E; cbn [mbind result_bind]
  end.

Lemma helpers_lengths key model :
  variogram_models !! key = Some model ->
  let n := length (parameter_names model) in
  (forall h lags semivariance lower upper,
     bnds model = Some h -> h lags semivariance = Ok (lower, upper) ->
     length lower = n /\ length upper = n) /\
  (forall h lags semivariance guess,
     x0 model = Some h -> h lags semivariance = Ok guess ->
     length guess = n).
Proof.
  intros Hm. apply registry_cases in Hm.
  rewrite !elem_of_cons, elem_of_nil in Hm.
  destruct Hm as [[= -> ->]|[[= -> ->]|[[= -> ->]|[[= -> ->]|[[= -> ->]|
    [[= -> ->]|[[= -> ->]|[]]]]]]]]; simpl; split.
  all: intros h lags semivariance; intros; simplify_eq; revert H0.
  all: try unfold linear_variogram_model_bnds, linear_variogram_model_x0,
    power_variogram_model_bnds, power_variogram_model_x0,
    gaussian_variogram_model_bnds, gaussian_variogram_model_x0,
    gamma_rayleigh_nuggetless_variogram_model_bnds,
    gamma_rayleigh_nuggetless_variogram_model_x0.
  all: run_helper; by intros [= <- <-] || by intros [= <-] || done.
Qed.

Lemma models_consume key model :
  variogram_models !! key = Some model ->
  parameters_consumed (fn_call (function model))
    (length (parameter_names model)).
Proof.
  intros Hm. apply registry_cases in Hm.
  rewrite !elem_of_cons, elem_of_nil in Hm.
  destruct Hm as [[= -> ->]|[[= -> ->]|[[= -> ->]|[[= -> ->]|[[= -> ->]|
    [[= -> ->]|[[= -> ->]|[]]]]]]]]; cbn [function fn_call parameter_names
      length linear_model power_model gaussian_model exponential_model
      spherical_model hole_effect_model gamma_rayleigh_nuggetless_model
      variogram_model_init]; split_and!.
  all: try (intros [|a [|b [|c m]]] d Hl; simpl in Hl; try lia; reflexivity).
  all: try (intros [|a [|b [|c m]]] d; reflexivity).
  all: try (exists [0; 0], (NdArray []); split; reflexivity).
  all: try (exists [0; 0; 0], (NdArray []); split; reflexivity).
Qed.

(** C5.  For every model of the registry the number of parameter names
    equals the number of parameters its function consumes, the length of
    each of the two sequences its bounds helper returns and the length
    of the sequence its initial-guess helper returns. *)
Theorem parameter_counts_agree :
  map_Forall (fun _ model =>
    let n := length (parameter_names model) in
    parameters_consumed (fn_call (function model)) n /\
    (forall h lags semivariance lower upper,
       bnds model = Some h -> h lags semivariance = Ok (lower, upper) ->
       length lower = n /\ length upper = n) /\
    (forall h lags semivariance guess,
       x0 model = Some h -> h lags semivariance = Ok guess ->
       length guess = n)) variogram_models.
Proof.
  intros key model Hm. split.
  - by eapply models_consume.
  - by eapply helpers_lengths.
Qed.


End Descriptors.

(** ** Edge cases of the parameters *)

Local Open Scope float_scope.

Lemma is_zero_inv z : is_zero z = true -> z = 0 \/ z = -0.
Proof.
  intros [s Hs]%is_zero_spec.
  rewrite <- (SF2Prim_Prim2SF z), Hs. destruct s; auto.
Qed.

Lemma nan_mul_l y : nan * y = nan.
Proof. apply Prim2SF_inj. by rewrite mul_spec. Qed.



Section EdgeCases.
Context `{L : Libm}.
(** With an infinite sill the product [sill*fd] is inf*0. *)
Lemma gamma_rayleigh_infinite_sill sill falloff beta :
  is_infinity sill = true -> is_finite falloff = true ->
  gamma_rayleigh_nuggetless_variogram_model [sill; falloff; beta]
    (PyFloat 0) = Ok (NpFloat nan).
Proof.
  intros Hs Hf. unfold gamma_rayleigh_nuggetless_variogram_model. cbn.
  assert (Hz : is_zero (falloff * 0) = true) by (by apply mul_zero_r).
  assert (sill * (falloff * 0) = nan) as ->.
  { apply Prim2SF_inj. rewrite mul_spec.
    apply is_zero_spec in Hz as [s ->].
    apply is_infinity_spec in Hs as [s' ->]. done. }
  by rewrite nan_mul_l.
Qed.

Lemma power_zero_exponent :
  power_variogram_model [2; 0; 5] (PyFloat 0) = Ok (PyFloat 7).
Proof. reflexivity. Qed.
End EdgeCases.

(** ** The reference libm meets the specification *)

Module RefLibmFacts.
Import RefLibm.

#[export] Instance ref_libm_spec : LibmSpec ref_libm.
Proof.
  split.
  - intros z [-> | ->]%is_zero_inv; reflexivity.
  - intros y Hy. destruct (ltb_zero_pos y Hy) as (Hz & Hn & _).
    cbn [libm_pow ref_libm]. unfold ref_pow. rewrite Hz, Hn, Hy.
    change (0 =? 1) with false. change (is_nan 0) with false.
    change (is_zero 0) with true. simpl.
    by destruct (is_odd_integer y).
Qed.

End RefLibmFacts.

(** ** Concrete runs with the reference libm *)


Module Examples.
Import RefLibm RefLibmFacts.





Lemma last_registration_wins_witness :
  name linear_model = name linear_override /\
  lookup_model "linear_variogram_model"
    (_add_model linear_override (_add_model linear_model ∅))
    = Ok linear_override.
Proof.
  split; [reflexivity|].
  apply (last_registration_wins ∅ linear_model (linear_override (L:=ref_libm)) eq_refl).
Defined.

Lemma parameter_counts_agree_witness :
  variogram_models !! "spherical_variogram_model" = Some spherical_model /\
  parameters_consumed spherical_variogram_model 3.
Proof.
  assert (H : variogram_models !! "spherical_variogram_model"
              = Some spherical_model) by (by rewrite registry_lookup).
  split; [done|].
  apply (parameter_counts_agree (L:=ref_libm) _ _ H).
Defined.





Lemma gamma_rayleigh_zero_distance_witness :
  zero_distance (PyFloat 0) /\
  is_finite 1 = true /\ is_finite (libm_exp (1 - 1)) = true /\
  equals (gamma_rayleigh_nuggetless_variogram_model [1; 1; 1] (PyFloat 0)) 0
    = true.
Proof.
  split; [by left|]. split; [reflexivity|]. split; [reflexivity|].
  apply (gamma_rayleigh_zero_distance (L:=ref_libm) 1 1 1 (PyFloat 0));
    [by left|reflexivity..].
Defined.

Lemma infinite_sill_counterexample :
  gamma_rayleigh_nuggetless_variogram_model [infinity; 1; 1] (PyFloat 0)
    = Ok (NpFloat nan) /\
  equals (gamma_rayleigh_nuggetless_variogram_model [infinity; 1; 1]
            (PyFloat 0)) 0 = false /\
  gamma_rayleigh_nuggetless_variogram_model [1; 1; -1000] (PyFloat 0)
    = Ok (NpFloat nan).
Proof. repeat split; reflexivity. Qed.

End Examples.

(** ** Further properties of the evaluation functions *)

Section Vectorisation.
Context `{L : Libm}.

(** X1.  The linear model never raises once it has its two parameters: for
    a Python float, a numpy scalar and an array alike it returns
    [slope * d + nugget], elementwise and in the kind of the distance. *)
Theorem linear_is_total slope nugget rest d :
  linear_variogram_model (slope :: nugget :: rest) d
    = Ok (pointwise (fun x => slope * x + nugget) d).
Proof.
  destruct d as [x|x|xs]; [reflexivity|reflexivity|].
  by rewrite linear_numpy.
Qed.



End Vectorisation.

Lemma select_nil_iff (c : float -> bool) xs :
  existsb c xs = false -> select xs (map c xs) = [].
Proof.
  induction xs as [|x xs IH]; simpl; [done|].
  destruct (c x); simpl; [done|]. apply IH.
Qed.

Lemma select_cons (c : float -> bool) xs :
  existsb c xs = true -> exists v vals, select xs (map c xs) = v :: vals.
Proof.
  induction xs as [|x xs IH]; simpl; [done|].
  destruct (c x); simpl; eauto.
Qed.

Lemma piecewise_loop_raise (c1 c2 : float -> bool) (f : pyval -> result pyval)
    (e : exn) (v : float) xs ys :
  length ys = length xs ->
  (forall vals, f (NdArray vals) = Raise e) ->
  piecewise_loop xs ys [(map c1 xs, Callable f); (map c2 xs, Constant v)]
    = if existsb c1 xs then Raise e
      else Ok (zip_with (fun x y => if c2 x then v else y) xs ys).
Proof.
  intros Hl Hf. simpl. rewrite !length_map, decide_True by done.
  destruct (existsb c1 xs) eqn:E.
  - destruct (select_cons c1 xs E) as (w & vals & ->). by rewrite Hf.
  - rewrite (select_nil_iff c1 xs E). simpl.
    rewrite decide_True by done. simpl. by rewrite mask_fill_map.
Qed.

Section SphericalErrors.
Context `{L : Libm}.

Lemma piecewise_two_raise (c1 c2 : float -> float -> bool)
    (f : pyval -> result pyval) (e : exn) (v r : float) d :
  (forall vals, f (NdArray vals) = Raise e) ->
  piecewise d [py_cmp c1 d r; py_cmp c2 d r] [Callable f; Constant v]
    = if existsb (fun x => c1 x r) (as_list d) then Raise e
      else Ok (elementwise (fun x => if c2 x r then v else 0) d).
Proof.
  intros Hf. unfold piecewise. simpl length. rewrite decide_True by done.
  cbn [mbind result_bind].
  assert (Hloop : forall xs,
    piecewise_loop xs (map (fun _ => 0) xs)
      (zip [map (fun x => c1 x r) xs; map (fun x => c2 x r) xs]
           [Callable f; Constant v])
    = if existsb (fun x => c1 x r) xs then Raise e
      else Ok (map (fun x => if c2 x r then v else 0) xs)).
  { intros xs. cbn [zip zip_with].
    rewrite (piecewise_loop_raise (fun x => c1 x r) (fun x => c2 x r) f e v)
      by (by rewrite ?length_map).
    destruct (existsb _ xs); [done|]. f_equal.
    induction xs as [|x xs IH]; simpl; [done|]. by rewrite IH. }
  destruct d as [x|x|xs].
  - change (piecewise_loop _ _ _) with
      (piecewise_loop [x] (map (fun _ => 0) [x])
         (zip [map (fun x => c1 x r) [x]; map (fun x => c2 x r) [x]]
              [Callable f; Constant v])).
    rewrite Hloop. cbn [as_list]. by destruct (existsb _ _).
  - change (piecewise_loop _ _ _) with
      (piecewise_loop [x] (map (fun _ => 0) [x])
         (zip [map (fun x => c1 x r) [x]; map (fun x => c2 x r) [x]]
              [Callable f; Constant v])).
    rewrite Hloop. cbn [as_list]. by destruct (existsb _ _).
  - change (piecewise_loop _ _ _) with
      (piecewise_loop xs (map (fun _ => 0) xs)
         (zip [map (fun x => c1 x r) xs; map (fun x => c2 x r) xs]
              [Callable f; Constant v])).
    rewrite Hloop. cbn [as_list]. by destruct (existsb _ _).
Qed.

Lemma spherical_cube_raises psill range_ nugget rest e d :
  py_pow range_ 3 = Raise e ->
  spherical_variogram_model (psill :: range_ :: nugget :: rest) d
    = if existsb (fun x => x <=? range_) (as_list d) then Raise e
      else Ok (elementwise
                 (fun x => if range_ <? x then psill + nugget else 0) d).
Proof.
  intros Hp. unfold spherical_variogram_model.
  cbn [float_ lookup list_lookup mbind result_bind]. unfold py_le, py_gt.
  rewrite (piecewise_two_raise PrimFloat.leb (fun x y => PrimFloat.ltb y x)
             _ e); [done|].
  intros vals. simpl. by rewrite Hp.
Qed.

Lemma py_pow_small_exponent_raises (x : float) (e : exn) :
  (py_pow x 2 = Raise e -> e = OverflowError) /\
  (py_pow x 3 = Raise e -> e = OverflowError).
Proof.
  unfold py_pow.
  change (is_zero 2) with false. change (is_zero 3) with false.
  change (is_nan 2) with false. change (is_nan 3) with false.
  change (is_infinity 2) with false. change (is_infinity 3) with false.
  change (2 <? 0) with false. change (3 <? 0) with false.
  change (0 <? 2) with true. change (0 <? 3) with true.
  change (is_integer 2) with true. change (is_integer 3) with true.
  rewrite !andb_false_r.
  split; repeat (case_match; try done); by intros [= <-].
Qed.

(** X4.  The spherical model raises exactly when [range_**3.] raises and
    some distance satisfies [d <= range_] (the lambda is called only for
    those), and then the exception is [OverflowError]; so with every
    distance above the range, or an empty array, it returns whatever the
    range is. *)
Theorem spherical_raises_exactly psill range_ nugget rest d :
  raises (spherical_variogram_model (psill :: range_ :: nugget :: rest) d)
    = raises (py_pow range_ 3)
      && existsb (fun x => x <=? range_) (as_list d) /\
  (forall e,
     spherical_variogram_model (psill :: range_ :: nugget :: rest) d = Raise e
     -> e = OverflowError).
Proof.
  destruct (py_pow range_ 3) as [p|e0] eqn:Ep.
  - rewrite (spherical_closed_form _ _ _ _ p) by done. done.
  - rewrite (spherical_cube_raises _ _ _ _ e0) by done.
    destruct (existsb _ _); [|done]. split; [done|].
    intros e [= <-]. by apply (proj2 (py_pow_small_exponent_raises range_ e0)).
Qed.

End SphericalErrors.

Lemma leb_nan_l x : (nan <=? x) = false.
Proof. by rewrite leb_spec. Qed.
Lemma leb_nan_r x : (x <=? nan) = false.
Proof.
  rewrite leb_spec. change (Prim2SF nan) with S754_nan.
  unfold SFleb. by destruct (Prim2SF x).
Qed.

Section OtherErrors.
Context `{L : Libm}.

(** X5.  On a numpy distance the gaussian model raises exactly when
    [(range_*4./7.)**2.] raises, whatever the distances are (an empty
    array included), and the exception is [OverflowError]. *)
Theorem gaussian_numpy_raises_exactly psill range_ nugget rest d :
  is_numpy d = true ->
  raises (gaussian_variogram_model (psill :: range_ :: nugget :: rest) d)
    = raises (py_pow (range_ * 4 / 7) 2) /\
  (forall e,
     gaussian_variogram_model (psill :: range_ :: nugget :: rest) d = Raise e
     -> e = OverflowError).
Proof.
  intros Hd. destruct (py_pow (range_ * 4 / 7) 2) as [q|e0] eqn:Eq.
  - by rewrite (gaussian_numpy _ _ _ _ q).
  - assert (gaussian_variogram_model (psill :: range_ :: nugget :: rest) d
            = Raise e0) as ->.
    { unfold gaussian_variogram_model.
      destruct d as [x|x|xs]; [done| |]; cbn;
        rewrite py_truediv_ok by reflexivity; cbn; by rewrite Eq. }
    split; [done|]. intros e [= <-].
    by apply (proj1 (py_pow_small_exponent_raises (range_ * 4 / 7) e0)).
Qed.

(** X6.  Exponential and hole-effect models on a Python float distance:
    when [range_/3.] is zero the call raises [ZeroDivisionError];
    otherwise it returns exactly what it returns for the same distance
    held as a numpy scalar. *)
Theorem python_float_zero_division psill range_ nugget rest x :
  (if is_zero (range_ / 3)
   then exponential_variogram_model (psill :: range_ :: nugget :: rest)
          (PyFloat x) = Raise ZeroDivisionError
   else exponential_variogram_model (psill :: range_ :: nugget :: rest)
          (PyFloat x)
        = exponential_variogram_model (psill :: range_ :: nugget :: rest)
            (NpFloat x)) /\
  (if is_zero (range_ / 3)
   then hole_effect_variogram_model (psill :: range_ :: nugget :: rest)
          (PyFloat x) = Raise ZeroDivisionError
   else hole_effect_variogram_model (psill :: range_ :: nugget :: rest)
          (PyFloat x)
        = hole_effect_variogram_model (psill :: range_ :: nugget :: rest)
            (NpFloat x)).
Proof.
  unfold exponential_variogram_model, hole_effect_variogram_model.
  destruct (is_zero (range_ / 3)) eqn:Hz; split; cbn;
    rewrite !py_truediv_ok by reflexivity; cbn;
    unfold py_truediv; rewrite Hz; done.
Qed.

End OtherErrors.

(** ** Order of binary64 values and the extrema of data *)

Lemma SFleb_trans x y z :
  SFleb x y = true -> SFleb y z = true -> SFleb x z = true.
Proof.
  unfold SFleb.
  destruct x as [sx|sx| |sx mx ex], y as [sy|sy| |sy my ey],
    z as [sz|sz| |sz mz ez]; simpl; try done;
    try (destruct sx; done); try (destruct sy; done);
    try (destruct sz; done);
    try (destruct sx, sy; done); try (destruct sy, sz; done);
    try (destruct sx, sz; done); try (destruct sx, sy, sz; done).
  destruct sx, sy, sz; simpl; try done;
    change (PosDef.Pos.compare_cont Eq mx my) with (Pos.compare mx my);
    change (PosDef.Pos.compare_cont Eq my mz) with (Pos.compare my mz);
    change (PosDef.Pos.compare_cont Eq mx mz) with (Pos.compare mx mz);
    destruct (Z.compare_spec ex ey), (Z.compare_spec ey ez),
      (Z.compare_spec ex ez); try done; try lia; subst;
    destruct (Pos.compare_spec mx my), (Pos.compare_spec my mz),
      (Pos.compare_spec mx mz); simpl; try done; try lia.
Qed.

Lemma leb_trans x y z :
  (x <=? y) = true -> (y <=? z) = true -> (x <=? z) = true.
Proof. rewrite !leb_spec. apply SFleb_trans. Qed.

Lemma leb_refl x : is_nan x = false -> (x <=? x) = true.
Proof.
  rewrite is_nan_false, leb_spec. intros H. unfold SFleb.
  by rewrite SFcompare_refl.
Qed.

Lemma leb_total x y :
  is_nan x = false -> is_nan y = false ->
  (x <=? y) = true \/ (y <=? x) = true.
Proof.
  rewrite !is_nan_false, !leb_spec. unfold SFleb. intros Hx Hy.
  rewrite (SFcompare_antisym (Prim2SF x) (Prim2SF y)).
  destruct (Prim2SF x) as [sx|sx| |sx mx ex] eqn:Ex; [| |done|];
  destruct (Prim2SF y) as [sy|sy| |sy my ey] eqn:Ey; try done;
    destruct (SFcompare _ _) as [[]|] eqn:E; simpl; auto; simpl in E;
    try done; by repeat case_match.
Qed.

Lemma is_nan_eq x : is_nan x = true -> x = nan.
Proof. intros H%is_nan_spec. by apply Prim2SF_inj. Qed.

Lemma np_maximum_cases a b :
  is_nan a = false -> is_nan b = false ->
  let m := np_maximum a b in
  is_nan m = false /\ (a <=? m) = true /\ (b <=? m) = true /\
  (m = a \/ m = b).
Proof.
  intros Ha Hb. unfold np_maximum. rewrite Ha, orb_false_r.
  destruct (b <=? a) eqn:E; simpl.
  - split_and!; auto using leb_refl.
  - split_and!; auto using leb_refl.
    destruct (leb_total a b Ha Hb); [done|congruence].
Qed.

Lemma np_minimum_cases a b :
  is_nan a = false -> is_nan b = false ->
  let m := np_minimum a b in
  is_nan m = false /\ (m <=? a) = true /\ (m <=? b) = true /\
  (m = a \/ m = b).
Proof.
  intros Ha Hb. unfold np_minimum. rewrite Ha, orb_false_r.
  destruct (a <=? b) eqn:E; simpl.
  - split_and!; auto using leb_refl.
  - split_and!; auto using leb_refl.
    destruct (leb_total a b Ha Hb); [congruence|done].
Qed.

Lemma fold_maximum xs acc :
  is_nan acc = false -> Forall (fun x => is_nan x = false) xs ->
  let m := fold_left np_maximum xs acc in
  is_nan m = false /\ (acc <=? m) = true /\
  Forall (fun x => (x <=? m) = true) xs /\ m ∈ acc :: xs.
Proof.
  revert acc. induction xs as [|y xs IH]; intros acc Ha Hxs; simpl.
  - split_and!; auto using leb_refl. rewrite elem_of_cons. by left.
  - apply Forall_cons in Hxs as [Hy Hxs].
    destruct (np_maximum_cases acc y Ha Hy) as (Hn & H1 & H2 & Hm).
    destruct (IH _ Hn Hxs) as (Hn' & H3 & H4 & H5).
    split_and!; [done|by eapply leb_trans| |].
    + constructor; [by eapply leb_trans|done].
    + rewrite !elem_of_cons. apply elem_of_cons in H5 as [->|H5]; [|auto].
      destruct Hm as [-> | ->]; auto.
Qed.

Lemma fold_minimum xs acc :
  is_nan acc = false -> Forall (fun x => is_nan x = false) xs ->
  let m := fold_left np_minimum xs acc in
  is_nan m = false /\ (m <=? acc) = true /\
  Forall (fun x => (m <=? x) = true) xs /\ m ∈ acc :: xs.
Proof.
  revert acc. induction xs as [|y xs IH]; intros acc Ha Hxs; simpl.
  - split_and!; auto using leb_refl. rewrite elem_of_cons. by left.
  - apply Forall_cons in Hxs as [Hy Hxs].
    destruct (np_minimum_cases acc y Ha Hy) as (Hn & H1 & H2 & Hm).
    destruct (IH _ Hn Hxs) as (Hn' & H3 & H4 & H5).
    split_and!; [done|by eapply leb_trans| |].
    + constructor; [by eapply leb_trans|done].
    + rewrite !elem_of_cons. apply elem_of_cons in H5 as [->|H5]; [|auto].
      destruct Hm as [-> | ->]; auto.
Qed.

(** On data without nan, [np.amax] and [np.amin] return elements of the
    data that bound every element. *)
Lemma np_extrema_bound (l : list float) :
  l <> [] -> Forall (fun x => is_nan x = false) l ->
  exists hi lo,
    np_amax l = Ok hi /\ np_amin l = Ok lo /\ hi ∈ l /\ lo ∈ l /\
    Forall (fun x => (lo <=? x) = true /\ (x <=? hi) = true) l.
Proof.
  destruct l as [|a l]; [done|]. intros _ [Ha Hl]%Forall_cons.
  destruct (fold_maximum l a Ha Hl) as (_ & H1 & H2 & H3).
  destruct (fold_minimum l a Ha Hl) as (_ & H4 & H5 & H6).
  eexists _, _. split_and!; try done.
  constructor; [done|]. apply Forall_and. done.
Qed.

Lemma fold_maximum_nan xs acc :
  is_nan acc = true \/ Exists (fun x => is_nan x = true) xs ->
  fold_left np_maximum xs acc = nan.
Proof.
  revert acc. induction xs as [|y xs IH]; intros acc H; simpl.
  - destruct H as [H|H]; [by apply is_nan_eq|by inversion H].
  - apply IH. unfold np_maximum.
    destruct H as [H|H]; [left; by rewrite H, orb_true_r|].
    apply Exists_cons in H as [H|H]; [|by right]. left.
    destruct (is_nan acc) eqn:Ea; [by rewrite orb_true_r|].
    rewrite orb_false_r, (is_nan_eq _ H), leb_nan_l. done.
Qed.

Lemma fold_minimum_nan xs acc :
  is_nan acc = true \/ Exists (fun x => is_nan x = true) xs ->
  fold_left np_minimum xs acc = nan.
Proof.
  revert acc. induction xs as [|y xs IH]; intros acc H; simpl.
  - destruct H as [H|H]; [by apply is_nan_eq|by inversion H].
  - apply IH. unfold np_minimum.
    destruct H as [H|H]; [left; by rewrite H, orb_true_r|].
    apply Exists_cons in H as [H|H]; [|by right]. left.
    destruct (is_nan acc) eqn:Ea; [by rewrite orb_true_r|].
    rewrite orb_false_r, (is_nan_eq _ H), leb_nan_r. done.
Qed.

(** ** Further properties of the helpers *)

(** X8.  On data without nan the nugget guess of the linear, power and
    gaussian helpers is the least semivariance and the nugget upper bound
    is the greatest one, both taken from the data; so the guess is at most
    the upper bound, and it is at least the lower bound 0 when no
    semivariance is negative. *)
Theorem nugget_guess_within_bounds (lags semivariance : list float) :
  lags <> [] -> semivariance <> [] ->
  Forall (fun s => is_nan s = false) semivariance ->
  exists lo hi lmax,
    lo ∈ semivariance /\ hi ∈ semivariance /\ (lo <=? hi) = true /\
    Forall (fun s => (lo <=? s) = true /\ (s <=? hi) = true) semivariance /\
    (Forall (fun s => (0 <=? s) = true) semivariance -> (0 <=? lo) = true) /\
    (exists slope,
       linear_variogram_model_x0 lags semivariance = Ok [slope; lo] /\
       linear_variogram_model_bnds lags semivariance
         = Ok ([0; 0], [infinity; hi]) /\
       power_variogram_model_x0 lags semivariance = Ok [slope; 1.1; lo] /\
       power_variogram_model_bnds lags semivariance
         = Ok ([0; 0.0001; 0], [infinity; 1.999; hi])) /\
    gaussian_variogram_model_x0 lags semivariance
      = Ok [hi - lo; 0.25 * lmax; lo] /\
    gaussian_variogram_model_bnds lags semivariance
      = Ok ([0; 0; 0], [10 * hi; lmax; hi]).
Proof.
  intros Hl Hs Hn.
  destruct (np_extrema_bound _ Hs Hn) as (hi & lo & Hmax & Hmin & Hhi & Hlo & Hb).
  destruct (np_amax_ok _ Hl) as [lmax Hlmax], (np_amin_ok _ Hl) as [lmin Hlmin].
  exists lo, hi, lmax. split_and!; try done.
  - by destruct (proj1 (Forall_forall _ _) Hb hi Hhi).
  - intros H0. by apply (proj1 (Forall_forall _ _) H0 lo Hlo).
  - exists ((hi - lo) / (lmax - lmin)).
    unfold linear_variogram_model_x0, linear_variogram_model_bnds,
      power_variogram_model_x0, power_variogram_model_bnds.
    by rewrite Hmax, Hmin, Hlmax, Hlmin.
  - unfold gaussian_variogram_model_x0. by rewrite Hmax, Hmin, Hlmax.
  - unfold gaussian_variogram_model_bnds. by rewrite Hmax, Hlmax.
Qed.

(** X9.  One nan among the semivariances makes every entry derived from
    the semivariance nan: the nugget bound and guess, the slope, scale and
    psill guesses and the psill bound. *)
Theorem nan_semivariance_propagates (lags semivariance : list float) :
  lags <> [] -> Exists (fun s => is_nan s = true) semivariance ->
  linear_variogram_model_bnds lags semivariance
    = Ok ([0; 0], [infinity; nan]) /\
  power_variogram_model_bnds lags semivariance
    = Ok ([0; 0.0001; 0], [infinity; 1.999; nan]) /\
  (exists lmax,
     gaussian_variogram_model_bnds lags semivariance
       = Ok ([0; 0; 0], [nan; lmax; nan]) /\
     gaussian_variogram_model_x0 lags semivariance
       = Ok [nan; 0.25 * lmax; nan]) /\
  linear_variogram_model_x0 lags semivariance = Ok [nan; nan] /\
  power_variogram_model_x0 lags semivariance = Ok [nan; 1.1; nan].
Proof.
  intros Hl He.
  assert (np_amax semivariance = Ok nan /\ np_amin semivariance = Ok nan)
    as [Hmax Hmin].
  { destruct semivariance as [|a l]; [by inversion He|]. simpl.
    apply Exists_cons in He.
    rewrite fold_maximum_nan, fold_minimum_nan; [done|tauto..]. }
  destruct (np_amax_ok _ Hl) as [lmax Hlmax], (np_amin_ok _ Hl) as [lmin Hlmin].
  unfold linear_variogram_model_x0, linear_variogram_model_bnds,
    power_variogram_model_x0, power_variogram_model_bnds,
    gaussian_variogram_model_x0, gaussian_variogram_model_bnds.
  rewrite Hmax, Hmin, Hlmax, Hlmin. cbn [mbind result_bind].
  change (nan - nan) with nan. change (10 * nan) with nan.
  assert (nan / (lmax - lmin) = nan) as ->.
  { apply Prim2SF_inj. by rewrite div_spec. }
  split_and!; try done. by exists lmax.
Qed.

(** X10.  A helper raises exactly when a sequence it reduces is empty, and
    then with [ValueError]: the linear and power bounds need only the
    semivariance, the other linear, power and gaussian helpers need lags
    and semivariance, and the gamma-Rayleigh helpers never raise. *)
Theorem helpers_raise_exactly_on_missing_data
    (lags semivariance : list float) :
  raises (linear_variogram_model_bnds lags semivariance)
    = no_data semivariance /\
  raises (power_variogram_model_bnds lags semivariance)
    = no_data semivariance /\
  raises (linear_variogram_model_x0 lags semivariance)
    = no_data semivariance || no_data lags /\
  raises (power_variogram_model_x0 lags semivariance)
    = no_data semivariance || no_data lags /\
  raises (gaussian_variogram_model_bnds lags semivariance)
    = no_data semivariance || no_data lags /\
  raises (gaussian_variogram_model_x0 lags semivariance)
    = no_data semivariance || no_data lags /\
  raises (gamma_rayleigh_nuggetless_variogram_model_bnds lags semivariance)
    = false /\
  raises (gamma_rayleigh_nuggetless_variogram_model_x0 lags semivariance)
    = false /\
  Forall (fun h : helper (list float * list float) =>
            forall e, h lags semivariance = Raise e -> e = ValueError)
    [linear_variogram_model_bnds; power_variogram_model_bnds;
     gaussian_variogram_model_bnds] /\
  Forall (fun h : helper (list float) =>
            forall e, h lags semivariance = Raise e -> e = ValueError)
    [linear_variogram_model_x0; power_variogram_model_x0;
     gaussian_variogram_model_x0].
Proof.
  destruct lags as [|l lags], semivariance as [|s semivariance];
    split_and!; try reflexivity;
    repeat constructor; intros e; cbn; congruence.
Qed.

(** X11.  The entries that do not depend on the data are consistent: the
    exponent guess of the power model lies strictly between its bounds,
    which lie strictly between 0 and 2, and every gamma-Rayleigh guess
    lies strictly between its bounds. *)
Theorem constant_guesses_lie_within_bounds (lags semivariance : list float) :
  (forall lower upper guess,
     power_variogram_model_bnds lags semivariance = Ok (lower, upper) ->
     power_variogram_model_x0 lags semivariance = Ok guess ->
     exists lo hi g,
       lower !! 1%nat = Some lo /\ upper !! 1%nat = Some hi /\
       guess !! 1%nat = Some g /\
       (lo <? g) = true /\ (g <? hi) = true /\ (0 <? lo) = true /\
       (hi <? 2) = true) /\
  exists lower upper guess,
    gamma_rayleigh_nuggetless_variogram_model_bnds lags semivariance
      = Ok (lower, upper) /\
    gamma_rayleigh_nuggetless_variogram_model_x0 lags semivariance
      = Ok guess /\
    Forall2 (fun lo g => (lo <? g) = true) lower guess /\
    Forall2 (fun g hi => (g <? hi) = true) guess upper.
Proof.
  split.
  - intros lower upper guess.
    unfold power_variogram_model_bnds, power_variogram_model_x0.
    destruct (np_amax semivariance), (np_amin semivariance),
      (np_amax lags), (np_amin lags); cbn; try done.
    intros [= <- <-] [= <-]. eexists _, _, _. by split_and!.
  - eexists _, _, _. split_and!; [reflexivity..| |];
      by repeat constructor.
Qed.

(** ** Further properties of the registry *)

Local Open Scope string_scope.

(** X12.  Registrations under different names commute: the registry does
    not depend on their order. *)
Theorem registration_commutes (reg : gmap string variogram_model)
    (a b : variogram_model) :
  name a <> name b ->
  _add_model a (_add_model b reg) = _add_model b (_add_model a reg).
Proof. intros H. unfold _add_model. by apply insert_insert_ne. Qed.



(** X14.  [_add_model] adds one entry when the name is new and keeps the
    number of entries when the name is taken. *)
Theorem registration_size (reg : gmap string variogram_model)
    (model : variogram_model) :
  size (_add_model model reg)
    = match reg !! name model with
      | Some _ => size reg
      | None => S (size reg)
      end.
Proof.
  unfold _add_model. destruct (reg !! name model) as [old|] eqn:E.
  - rewrite <- (insert_delete_id reg (name model) old) at 2 by done.
    rewrite <- (insert_delete_eq reg).
    rewrite !map_size_insert_None by apply lookup_delete_eq. done.
  - by apply map_size_insert_None.
Qed.

Section Dispatch.
Context `{L : Libm}.

(** X15.  The module's registry is the result of its seven registrations
    in order; each full name is looked up to its own descriptor, any
    other key raises [KeyError], and every registered descriptor has both
    helpers and no stored parameter values. *)
Theorem registry_dispatch :
  variogram_models
    = register_all
        [linear_model; power_model; gaussian_model; exponential_model;
         spherical_model; hole_effect_model; gamma_rayleigh_nuggetless_model]
        ∅ /\
  Forall2 (fun key model => lookup_model key variogram_models = Ok model)
    model_names
    [linear_model; power_model; gaussian_model; exponential_model;
     spherical_model; hole_effect_model; gamma_rayleigh_nuggetless_model] /\
  (forall key, key ∉ model_names ->
     lookup_model key variogram_models = Raise KeyError) /\
  map_Forall (fun _ model =>
    parameters model = None /\ is_Some (bnds model) /\ is_Some (x0 model))
    variogram_models.
Proof.
  split; [reflexivity|]. split; [|split].
  - unfold model_names, lookup_model.
    repeat constructor; by rewrite registry_lookup.
  - intros key Hk. unfold lookup_model. rewrite registry_lookup.
    unfold model_names in Hk. rewrite !elem_of_cons, elem_of_nil in Hk.
    repeat (case_decide; [tauto|]). done.
  - intros key model Hm. apply registry_cases in Hm.
    rewrite !elem_of_cons, elem_of_nil in Hm.
    destruct Hm as [[= -> ->]|[[= -> ->]|[[= -> ->]|[[= -> ->]|[[= -> ->]|
      [[= -> ->]|[[= -> ->]|[]]]]]]]]; simpl; eauto.
Qed.

End Dispatch.

(** ** Further concrete runs *)

Local Open Scope float_scope.

Module MoreExamples.
Import RefLibm RefLibmFacts.


Lemma gaussian_numpy_raises_exactly_witness :
  is_numpy (NdArray [1]) = true /\
  raises (gaussian_variogram_model [1; 1e200; 0] (NdArray [1]))
    = raises (py_pow (1e200 * 4 / 7) 2).
Proof.
  split; [reflexivity|].
  apply (gaussian_numpy_raises_exactly (L:=ref_libm) 1 1e200 0 []
           (NdArray [1]) eq_refl).
Defined.


Lemma nugget_guess_within_bounds_witness :
  [1; 2; 3; 4] <> [] /\ [0.5; 1; 1.5; 2] <> [] /\
  Forall (fun s => is_nan s = false) [0.5; 1; 1.5; 2] /\
  exists lo hi lmax,
    lo ∈ [0.5; 1; 1.5; 2] /\ hi ∈ [0.5; 1; 1.5; 2] /\ (lo <=? hi) = true /\
    gaussian_variogram_model_x0 [1; 2; 3; 4] [0.5; 1; 1.5; 2]
      = Ok [hi - lo; 0.25 * lmax; lo].
Proof.
  assert (H : Forall (fun s => is_nan s = false) [0.5; 1; 1.5; 2])
    by (by repeat constructor).
  split; [done|]. split; [done|]. split; [done|].
  destruct (nugget_guess_within_bounds [1; 2; 3; 4] [0.5; 1; 1.5; 2]
              ltac:(done) ltac:(done) H)
    as (lo & hi & lmax & H1 & H2 & H3 & _ & _ & _ & H4 & _).
  by exists lo, hi, lmax.
Defined.

Lemma nan_semivariance_propagates_witness :
  [1; 2] <> [] /\ Exists (fun s => is_nan s = true) [1; nan; 3] /\
  linear_variogram_model_x0 [1; 2] [1; nan; 3] = Ok [nan; nan].
Proof.
  assert (H : Exists (fun s => is_nan s = true) [1; nan; 3])
    by (right; by left).
  split; [done|]. split; [done|].
  apply (nan_semivariance_propagates [1; 2] [1; nan; 3] ltac:(done) H).
Defined.

Lemma registration_commutes_witness :
  name linear_model <> name power_model /\
  _add_model linear_model (_add_model power_model ∅)
    = _add_model power_model (_add_model linear_model ∅).
Proof.
  assert (H : name linear_model <> name (power_model (L:=ref_libm)))
    by done.
  split; [done|]. by apply registration_commutes.
Defined.


End MoreExamples.
